(** * SubMarine_40.680mHz.ino : pulse engine, frame encoder and command sequencer

    A shallow embedding of the [Submarine] class of the Arduino sketch.
    The sketch drives an SI5351 clock generator: every observable effect
    is a call to [clockGenerator.enableOutputs], [delayMicroseconds] or
    [delay], and the only input read back from the environment is
    [millis()].  The embedding therefore threads a board state made of
    a clock, the carrier line and the chronological list of calls.

    Integer widths are those of the sketch's target (ATmega328p):
    [uint8_t] 8 bits, [uint16_t] and [int] 16 bits, [long] and
    [unsigned long] 32 bits. *)

From Stdlib Require Import ZArith List Bool Lia Ascii.
Import ListNotations.
Open Scope Z_scope.

(** ** Machine integers *)

Definition to_uint8 (z : Z) : Z := z mod 2 ^ 8.
Definition to_uint16 (z : Z) : Z := z mod 2 ^ 16.
(** conversion to [unsigned long] *)
Definition to_ulong (z : Z) : Z := z mod 2 ^ 32.
(** conversion to [long] (two's complement wrap-around) *)
Definition to_long (z : Z) : Z := (z + 2 ^ 31) mod 2 ^ 32 - 2 ^ 31.

(** ** Data model *)

(** [struct SubmarinePulseType] *)
Record SubmarinePulseType : Type := mkPulse {
  enableWait : bool;
  waitDuration : Z
}.

Definition PULSE_SHORT : SubmarinePulseType := mkPulse false 0.
Definition PULSE_LONG : SubmarinePulseType := mkPulse true 450.
Definition PULSE_SYNC : SubmarinePulseType := mkPulse true 900.

(** [enum class SubmarineCommand : uint8_t] *)
Inductive SubmarineCommand : Type :=
| STOP | FORWARD | BACK | LEFT | RIGHT | UP | DOWN | CMD1 | CMD2.

(** the enumerator values, i.e. [static_cast<uint8_t>(command)] *)
Definition command_value (command : SubmarineCommand) : Z :=
  match command with
  | STOP => 0x00
  | FORWARD => 0x01
  | BACK => 0x02
  | LEFT => 0x04
  | RIGHT => 0x08
  | UP => 0x10
  | DOWN => 0x20
  | CMD1 => 0x40
  | CMD2 => 0x80
  end.

(** ** Effects *)

(** One constructor per call the class makes on its environment. *)
Inductive Event : Type :=
| EnableOutputs (enabled : bool)
| DelayMicroseconds (us : Z)
| Delay (ms : Z)
| SetupPLL (mult num denom : Z)                  (* always on SI5351_PLL_A *)
| SetupMultisynth (output div num denom : Z)     (* always from SI5351_PLL_A *)
| SetupRdiv (output div : Z).

(** The millisecond clock is part of the environment: a clock model says
    what [millis()] returns and how each call moves the clock on. *)
Record ClockModel : Type := mkClock {
  time : Type;
  millis : time -> Z;
  tick : Event -> time -> time
}.

(** A clock on which only [delay] takes time, exactly the time asked
    (the argument of [delay] is an [unsigned long]). *)
Definition IdealClock : ClockModel :=
  mkClock Z (fun t => t)
    (fun e t => match e with Delay ms => t + to_ulong ms | _ => t end).

(** A clock counting microseconds: [delay] and [delayMicroseconds] take
    exactly the time asked (the argument of [delayMicroseconds] is a
    16-bit [unsigned int]), the calls to the generator take none. *)
Definition MicrosClock : ClockModel :=
  mkClock Z (fun t => t / 1000)
    (fun e t => match e with
                | Delay ms => t + 1000 * to_ulong ms
                | DelayMicroseconds us => t + to_uint16 us
                | _ => t
                end).

(** The clock of the board as [millis()] shows it: only [delay] takes
    time, and the reading wraps around after 2^32 ms. *)
Definition WrapClock : ClockModel :=
  mkClock Z (fun t => to_ulong t)
    (fun e t => match e with Delay ms => t + to_ulong ms | _ => t end).

(** The millisecond clock never goes back. *)
Definition nondecreasing (clk : ClockModel) : Prop :=
  forall (e : Event) (t : time clk), millis clk t <= millis clk (tick clk e t).

(** A wait of 35 ms moves the millisecond clock on by 35 at least. *)
Definition wait35_advances (clk : ClockModel) : Prop :=
  forall t : time clk, millis clk t + 35 <= millis clk (tick clk (Delay 35) t).

(** Frames are sent every 35 ms: a wait of 35 ms moves the millisecond
    clock on by exactly 35, and no other call moves it. *)
Definition only_waits_take_time (clk : ClockModel) : Prop :=
  (forall t : time clk, millis clk (tick clk (Delay 35) t) = millis clk t + 35)
  /\ (forall (b : bool) (t : time clk),
        millis clk (tick clk (EnableOutputs b) t) = millis clk t)
  /\ (forall (us : Z) (t : time clk),
        millis clk (tick clk (DelayMicroseconds us) t) = millis clk t).

Section Board.

Variable clk : ClockModel.

Record Board : Type := mkBoard {
  clock : time clk;
  outputs : bool;          (* is the carrier on? *)
  trace : list Event       (* calls made so far, oldest first *)
}.

Definition call (e : Event) (s : Board) : Board :=
  mkBoard (tick clk e (clock s))
          (match e with EnableOutputs b => b | _ => outputs s end)
          (trace s ++ [e]).

Definition enableOutputs (enabled : bool) : Board -> Board :=
  call (EnableOutputs enabled).
Definition delayMicroseconds (us : Z) : Board -> Board :=
  call (DelayMicroseconds us).
Definition delay (ms : Z) : Board -> Board := call (Delay ms).

(** [for (int i = 0; i < n; i++) body], for a body that does not touch
    [i]: the body runs [n] times, and not at all when [n <= 0]. *)
Definition for_int (n : Z) (body : Board -> Board) (s : Board) : Board :=
  Nat.iter (Z.to_nat n) body s.

(** [Submarine::Submarine].  [begin_ok] is whether
    [clockGenerator.begin()] returned [ERROR_NONE]; when it did not the
    constructor spins in [while (1);] and never returns. *)
Definition Submarine (begin_ok : bool) (s : Board) : option Board :=
  if begin_ok then
    Some (enableOutputs false
           (call (SetupRdiv 0 0)
             (call (SetupMultisynth 0 18 0 1)
               (call (SetupPLL 29 181 625) s))))
  else None.

(** [Submarine::sendPulses] *)
Definition sendPulses (pulseType : SubmarinePulseType) (pulseCount : Z)
    (s : Board) : Board :=
  if enableWait pulseType then
    for_int pulseCount
      (fun s =>
         let s := enableOutputs true s in
         let s := delayMicroseconds (waitDuration pulseType) s in
         let s := enableOutputs false s in
         delayMicroseconds (waitDuration pulseType) s) s
  else
    for_int pulseCount
      (fun s =>
         let s := enableOutputs true s in
         enableOutputs false s) s.

(** The data loop of [sendFrame], [n] iterations left. *)
Fixpoint sendFrame_loop (n : nat) (currentPosition frame : Z) (s : Board)
    : Board :=
  match n with
  | O => s
  | S n' =>
      let s := sendPulses (if Z.land currentPosition frame >? 0
                           then PULSE_LONG else PULSE_SHORT) 1 s in
      sendFrame_loop n' (to_uint16 (Z.shiftr currentPosition 1)) frame s
  end.

(** [Submarine::sendFrame] *)
Definition sendFrame (frame : Z) (s : Board) : Board :=
  let currentPosition := 0x8000 in
  let s := sendPulses PULSE_SYNC 2 s in
  let s := sendFrame_loop 16 currentPosition frame s in
  sendPulses PULSE_SHORT 1 s.

(** [Submarine::sendStop] *)
Definition sendStop (s : Board) : Board := sendFrame 0xFF00 s.

(** The frame built in the first lines of [sendCommand]. *)
Definition encode (command : SubmarineCommand) : Z :=
  let lsB := to_uint8 (command_value command) in
  let msB := to_uint8 (Z.lnot lsB) in
  to_uint16 (Z.lor (Z.shiftl msB 8) lsB).

(** The test of the hold loop, [millis() < (start_time + hold_time_ms)]:
    the sum is a [long] (wrapping on overflow, as avr-gcc compiles it),
    and is converted to [unsigned long] for the comparison with
    [millis()], which returns an [unsigned long]. *)
Definition hold_test (start_time hold_time_ms : Z) (s : Board) : bool :=
  millis clk (clock s) <? to_ulong (to_long (start_time + hold_time_ms)).

(** The hold loop of [sendCommand]; it need not exit, hence the fuel:
    [None] means the loop was still running when the fuel ran out. *)
Fixpoint hold_loop (fuel : nat) (start_time hold_time_ms frame : Z)
    (s : Board) : option Board :=
  match fuel with
  | O => None
  | S fuel' =>
      if hold_test start_time hold_time_ms s then
        hold_loop fuel' start_time hold_time_ms frame
          (sendFrame frame (delay 35 s))
      else Some s
  end.

(** The closing loop of [sendCommand]. *)
Definition stop_loop (s : Board) : Board :=
  Nat.iter 3 (fun s => sendStop (delay 35 s)) s.

(** [Submarine::sendCommand] *)
Definition sendCommand (fuel : nat) (command : SubmarineCommand)
    (hold_time_ms : Z) (s : Board) : option Board :=
  let frame := encode command in
  let start_time := to_long (millis clk (clock s)) in
  let s := sendFrame frame s in
  let s := delay 35 s in
  let s := sendFrame frame s in
  match hold_loop fuel start_time hold_time_ms frame s with
  | Some s => Some (stop_loop s)
  | None => None
  end.

End Board.

Arguments clock {clk} _.
Arguments outputs {clk} _.
Arguments trace {clk} _.
Arguments call {clk} _ _.
Arguments enableOutputs {clk} _ _.
Arguments delayMicroseconds {clk} _ _.
Arguments delay {clk} _ _.
Arguments for_int {clk} _ _ _.
Arguments Submarine {clk} _ _.
Arguments sendPulses {clk} _ _ _.
Arguments sendFrame_loop {clk} _ _ _ _.
Arguments sendFrame {clk} _ _.
Arguments sendStop {clk} _.
Arguments hold_test {clk} _ _ _.
Arguments hold_loop {clk} _ _ _ _ _.
Arguments stop_loop {clk} _.
Arguments sendCommand {clk} _ _ _ _.

(** ** What the operations are expected to put on the wire *)

(** Making a list of calls one after the other. *)
Definition run_events {clk} (l : list Event) (s : Board clk) : Board clk :=
  fold_left (fun s e => call e s) l s.

(** The calls of one pulse of a given type. *)
Definition pulse_events (pulseType : SubmarinePulseType) : list Event :=
  if enableWait pulseType then
    [EnableOutputs true; DelayMicroseconds (waitDuration pulseType);
     EnableOutputs false; DelayMicroseconds (waitDuration pulseType)]
  else
    [EnableOutputs true; EnableOutputs false].

(** The pulse a data bit is sent as: LONG for 1, SHORT for 0. *)
Definition bit_pulse (frame : Z) (i : Z) : SubmarinePulseType :=
  if Z.testbit frame i then PULSE_LONG else PULSE_SHORT.

(** The pulses of a frame: two SYNC, bits 15 down to 0, one SHORT. *)
Definition frame_pulses (frame : Z) : list SubmarinePulseType :=
  [PULSE_SYNC; PULSE_SYNC]
    ++ map (bit_pulse frame) [15; 14; 13; 12; 11; 10; 9; 8; 7; 6; 5; 4; 3; 2; 1; 0]
    ++ [PULSE_SHORT].

(** Bit positions [n-1] down to 0. *)
Fixpoint countdown (n : nat) : list Z :=
  match n with
  | O => []
  | S n' => Z.of_nat n' :: countdown n'
  end.

Definition frame_events (frame : Z) : list Event :=
  flat_map pulse_events (frame_pulses frame).

(** The calls of a whole command: the frame, a 35 ms wait and the frame
    again, [k] times a wait and the frame, three times a wait and the
    stop frame. *)
Definition command_events (frame : Z) (k : nat) : list Event :=
  frame_events frame
    ++ (Delay 35 :: frame_events frame)
    ++ concat (repeat (Delay 35 :: frame_events frame) k)
    ++ concat (repeat (Delay 35 :: frame_events 0xFF00) 3).

(** The board when the hold loop makes its test for the [j]-th time
    (counting from 0), as long as the loop is still running. *)
Definition hold_state {clk} (command : SubmarineCommand) (s : Board clk)
    (j : nat) : Board clk :=
  Nat.iter j (fun s => sendFrame (encode command) (delay 35 s))
    (sendFrame (encode command) (delay 35 (sendFrame (encode command) s))).

(** Milliseconds read on the clock at [s'] minus those read at [s]. *)
Definition elapsed {clk} (s s' : Board clk) : Z :=
  millis clk (clock s') - millis clk (clock s).

(** [k] is the number of times the hold test succeeds when it is read
    as "less than [hold_time_ms] have elapsed since the call began". *)
Definition hold_count {clk} (command : SubmarineCommand) (hold_time_ms : Z)
    (s : Board clk) (k : nat) : Prop :=
  (forall j, (j < k)%nat -> elapsed s (hold_state command s j) < hold_time_ms)
  /\ ~ elapsed s (hold_state command s k) < hold_time_ms.

(** [k] is the number of times the hold test of the code succeeds. *)
Definition code_hold_count {clk} (command : SubmarineCommand)
    (hold_time_ms : Z) (s : Board clk) (k : nat) : Prop :=
  (forall j, (j < k)%nat ->
     hold_test (to_long (millis clk (clock s))) hold_time_ms
       (hold_state command s j) = true)
  /\ hold_test (to_long (millis clk (clock s))) hold_time_ms
       (hold_state command s k) = false.

(** The carrier line after a list of calls, given what it was before. *)
Definition carrier_after (l : list Event) (before : bool) : bool :=
  fold_left (fun b e => match e with EnableOutputs b' => b' | _ => b end)
    l before.

(** A list of calls that leaves a carrier that was off, off. *)
Definition keeps_off (l : list Event) : Prop := carrier_after l false = false.

(** The boards a sketch can be in: the constructor has returned, and
    since then only the public operations were called. *)
Inductive Reachable {clk} : Board clk -> Prop :=
| Reach_Submarine s0 s :
    Submarine true s0 = Some s -> Reachable s
| Reach_sendPulses pulseType pulseCount s :
    Reachable s -> Reachable (sendPulses pulseType pulseCount s)
| Reach_sendFrame frame s :
    Reachable s -> Reachable (sendFrame frame s)
| Reach_sendStop s :
    Reachable s -> Reachable (sendStop s)
| Reach_sendCommand fuel command hold_time_ms s s' :
    Reachable s -> sendCommand fuel command hold_time_ms s = Some s' ->
    Reachable s'.

(** A board just powered on, [t] on the clock, nothing called yet. *)
Definition power_on (clk : ClockModel) (t : time clk) (carrier : bool)
    : Board clk :=
  mkBoard clk t carrier [].

(** Calls that belong to a pulse. *)
Definition is_pulse_event (e : Event) : bool :=
  match e with
  | EnableOutputs _ | DelayMicroseconds _ => true
  | _ => false
  end.

(** Boards used as examples: one second after power-on, one second and
    ten milliseconds before the 32-bit millisecond clock wraps, and at
    power-on with the microsecond clock. *)
Definition one_second_up : Board IdealClock := power_on IdealClock 1000 false.
Definition before_wrap : Board IdealClock :=
  power_on IdealClock 4294966296 false.
Definition ten_ms_before_wrap : Board WrapClock :=
  power_on WrapClock 4294967286 false.
Definition micros_board : Board MicrosClock := power_on MicrosClock 0 false.

(** ** The rest of the sketch *)

(** The frame [sendCommand] builds, for any value its [command]
    argument can hold: a [SubmarineCommand] is a [uint8_t] underneath,
    so a caller can pass a combination such as FORWARD | LEFT. *)
Definition frame_of_byte (command : Z) : Z :=
  let lsB := to_uint8 command in
  let msB := to_uint8 (Z.lnot lsB) in
  to_uint16 (Z.lor (Z.shiftl msB 8) lsB).

(** conversion to [char] (8 bits, signed on the target) *)
Definition to_char (z : Z) : Z := (z + 2 ^ 7) mod 2 ^ 8 - 2 ^ 7.

(** the value of a character literal *)
Definition char_code (c : ascii) : Z := Z.of_N (N_of_ascii c).

Section Sketch.

Variable clk : ClockModel.

(** One turn of the [while (true)] of [setup]: [serial_read] is what
    [Serial.read()] returned (-1 when nothing was received), [sub] the
    board behind the [Submarine] object. *)
Definition setup_step (fuel : nat) (serial_read : Z) (sub : Board clk)
    : option (Board clk) :=
  let read := to_char serial_read in
  if read =? char_code "f" then sendCommand fuel FORWARD 3000 sub
  else if read =? char_code "b" then sendCommand fuel BACK 3000 sub
  else if read =? char_code "d" then sendCommand fuel DOWN 3000 sub
  else if read =? char_code "u" then sendCommand fuel UP 3000 sub
  else if read =? char_code "l" then sendCommand fuel LEFT 3000 sub
  else if read =? char_code "r" then sendCommand fuel RIGHT 3000 sub
  else Some sub.

(** The [while (true)] of [setup] never ends; [setup_loop] runs the
    turns that read the values [input], in that order. *)
Fixpoint setup_loop (fuel : nat) (input : list Z) (sub : Board clk)
    : option (Board clk) :=
  match input with
  | [] => Some sub
  | serial_read :: input' =>
      match setup_step fuel serial_read sub with
      | Some sub' => setup_loop fuel input' sub'
      | None => None
      end
  end.

(** [setup]: the constructor, then the loop.  [Serial.begin] makes no
    call on the generator and is not in the trace. *)
Definition setup (fuel : nat) (begin_ok : bool) (input : list Z)
    (s : Board clk) : option (Board clk) :=
  match Submarine begin_ok s with
  | Some sub => setup_loop fuel input sub
  | None => None
  end.

End Sketch.

Arguments setup_step {clk} _ _ _.
Arguments setup_loop {clk} _ _ _.
Arguments setup {clk} _ _ _ _.

(** The command a key stands for, if any. *)
Definition key_command (serial_read : Z) : option SubmarineCommand :=
  let byte := to_uint8 serial_read in
  if byte =? char_code "f" then Some FORWARD
  else if byte =? char_code "b" then Some BACK
  else if byte =? char_code "d" then Some DOWN
  else if byte =? char_code "u" then Some UP
  else if byte =? char_code "l" then Some LEFT
  else if byte =? char_code "r" then Some RIGHT
  else None.

(** The commands of the keys of an input, in order. *)
Definition keys (input : list Z) : list SubmarineCommand :=
  flat_map (fun r => match key_command r with Some c => [c] | None => [] end)
    input.

(** Commands held for 3000 ms, one after the other. *)
Fixpoint commands_loop {clk} (fuel : nat) (commands : list SubmarineCommand)
    (sub : Board clk) : option (Board clk) :=
  match commands with
  | [] => Some sub
  | command :: commands' =>
      match sendCommand fuel command 3000 sub with
      | Some sub' => commands_loop fuel commands' sub'
      | None => None
      end
  end.

(** The calls of a run of commands, [k] hold retransmissions each. *)
Definition commands_events (l : list (SubmarineCommand * nat)) : list Event :=
  concat (map (fun ck => command_events (encode (fst ck)) (snd ck)) l).

(** The calls of the constructor. *)
Definition Submarine_events : list Event :=
  [SetupPLL 29 181 625; SetupMultisynth 0 18 0 1; SetupRdiv 0 0;
   EnableOutputs false].

(** The pulse of a data bit. *)
Definition pulse_of_bit (b : bool) : SubmarinePulseType :=
  if b then PULSE_LONG else PULSE_SHORT.

(** Is the pulse a LONG one? *)
Definition is_long (p : SubmarinePulseType) : bool :=
  enableWait p && (waitDuration p =? 450).

(** The microseconds asked of [delayMicroseconds] in a list of calls. *)
Definition wait_micros (l : list Event) : Z :=
  fold_right (fun e acc => match e with DelayMicroseconds us => us + acc | _ => acc end)
    0 l.

(** The number of 35 ms waits in a list of calls. *)
Definition count_wait35 (l : list Event) : Z :=
  fold_right (fun e acc => match e with
                           | Delay ms => if ms =? 35 then 1 + acc else acc
                           | _ => acc
                           end) 0 l.

(** The calls a command may make: switching the carrier, the two pulse
    waits and the 35 ms wait. *)
Definition command_call (e : Event) : bool :=
  match e with
  | EnableOutputs _ => true
  | DelayMicroseconds us => (us =? 450) || (us =? 900)
  | Delay ms => ms =? 35
  | _ => false
  end.

(** ** The pulse engine *)

Lemma trace_call {clk} (e : Event) (s : Board clk) :
  trace (call e s) = trace s ++ [e].
Proof. reflexivity. Qed.

Lemma run_events_app {clk} (l1 l2 : list Event) (s : Board clk) :
  run_events (l1 ++ l2) s = run_events l2 (run_events l1 s).
Proof. apply fold_left_app. Qed.

Lemma trace_run_events {clk} (l : list Event) :
  forall s : Board clk, trace (run_events l s) = trace s ++ l.
Proof.
  induction l as [|e l IH]; intros s; simpl.
  - now rewrite app_nil_r.
  - rewrite IH. simpl. now rewrite <- app_assoc.
Qed.

Lemma concat_repeat_snoc {A} (l : list A) (n : nat) :
  concat (repeat l n) ++ l = l ++ concat (repeat l n).
Proof.
  induction n as [|n IH]; simpl.
  - now rewrite app_nil_r.
  - now rewrite <- app_assoc, IH.
Qed.

Lemma iter_run_events {clk} (body : Board clk -> Board clk) (l : list Event) :
  (forall s, body s = run_events l s) ->
  forall n s, Nat.iter n body s = run_events (concat (repeat l n)) s.
Proof.
  intros Hbody n s; induction n as [|n IH]; simpl.
  - reflexivity.
  - now rewrite IH, Hbody, <- run_events_app, concat_repeat_snoc.
Qed.

Lemma sendPulses_run {clk} (pulseType : SubmarinePulseType) (pulseCount : Z)
    (s : Board clk) :
  sendPulses pulseType pulseCount s
  = run_events (concat (repeat (pulse_events pulseType) (Z.to_nat pulseCount))) s.
Proof.
  destruct pulseType as [w d]. unfold sendPulses, pulse_events, for_int; simpl.
  destruct w; apply iter_run_events; reflexivity.
Qed.

(** C6: whatever the pulse type and the count, [sendPulses] is, once per
    repetition, the calls enable / wait [waitDuration] / disable / wait
    [waitDuration] when the type has [enableWait], and the calls enable /
    disable with nothing in between when it has not; these calls and no
    others are added to the trace. *)
Theorem sendPulses_events {clk} :
  forall (pulseType : SubmarinePulseType) (pulseCount : Z) (s : Board clk),
    let once :=
      if enableWait pulseType then
        [EnableOutputs true; DelayMicroseconds (waitDuration pulseType);
         EnableOutputs false; DelayMicroseconds (waitDuration pulseType)]
      else [EnableOutputs true; EnableOutputs false] in
    sendPulses pulseType pulseCount s
    = run_events (concat (repeat once (Z.to_nat pulseCount))) s
    /\ trace (sendPulses pulseType pulseCount s)
       = trace s ++ concat (repeat once (Z.to_nat pulseCount)).
Proof.
  intros pt n s once.
  assert (H : sendPulses pt n s = run_events (concat (repeat once (Z.to_nat n))) s)
    by apply sendPulses_run.
  split; [exact H | rewrite H; apply trace_run_events].
Qed.

(** C10: a pulse count of zero or less leaves the board as it was: no
    call is made, so the carrier is not toggled and nothing waits. *)
Theorem sendPulses_nonpositive {clk} :
  forall (pulseType : SubmarinePulseType) (pulseCount : Z) (s : Board clk),
    pulseCount <= 0 ->
    sendPulses pulseType pulseCount s = s
    /\ trace (sendPulses pulseType pulseCount s) = trace s.
Proof.
  intros pt n s Hn.
  assert (H : sendPulses pt n s = s).
  { unfold sendPulses, for_int.
    replace (Z.to_nat n) with 0%nat by lia.
    now destruct (enableWait pt). }
  now rewrite H.
Qed.

Lemma sendPulses_nonpositive_witness :
  -3 <= 0 /\
  sendPulses PULSE_SYNC (-3) (power_on IdealClock 0 false)
  = power_on IdealClock 0 false.
Proof.
  split; [lia | apply (sendPulses_nonpositive PULSE_SYNC (-3)); lia].
Defined.

(** ** The frame encoder *)

Lemma land_pow2 (i frame : Z) :
  0 <= i -> Z.land (2 ^ i) frame = if Z.testbit frame i then 2 ^ i else 0.
Proof.
  intros Hi. apply Z.bits_inj'. intros n Hn.
  rewrite Z.land_spec, Z.pow2_bits_eqb by assumption.
  destruct (Z.eqb_spec i n) as [->|Hne]; simpl.
  - destruct (Z.testbit frame n); [|now rewrite Z.bits_0].
    rewrite Z.pow2_bits_eqb by assumption. symmetry; apply Z.eqb_refl.
  - destruct (Z.testbit frame i); [|now rewrite Z.bits_0].
    rewrite Z.pow2_bits_eqb by assumption. symmetry. now apply Z.eqb_neq.
Qed.

(** The mask test of the data loop reads bit [i] of the frame. *)
Lemma mask_test (i frame : Z) :
  0 <= i -> (Z.land (2 ^ i) frame >? 0) = Z.testbit frame i.
Proof.
  intros Hi. rewrite land_pow2 by assumption.
  destruct (Z.testbit frame i); [|reflexivity].
  apply Z.gtb_lt. now apply Z.pow_pos_nonneg.
Qed.

Lemma mask_shift (n : nat) :
  (n < 15)%nat ->
  to_uint16 (Z.shiftr (2 ^ Z.of_nat (S n)) 1) = 2 ^ Z.of_nat n.
Proof.
  intros Hn. rewrite Z.shiftr_div_pow2 by lia.
  replace (Z.of_nat (S n)) with (Z.of_nat n + 1) by lia.
  rewrite Z.pow_add_r, Z.pow_1_r, Z.div_mul by lia.
  unfold to_uint16. apply Z.mod_small. split; [apply Z.pow_nonneg; lia|].
  apply Z.pow_lt_mono_r; lia.
Qed.

Lemma sendFrame_loop_S {clk} (n : nat) (currentPosition frame : Z)
    (s : Board clk) :
  sendFrame_loop (S n) currentPosition frame s
  = sendFrame_loop n (to_uint16 (Z.shiftr currentPosition 1)) frame
      (sendPulses (if Z.land currentPosition frame >? 0
                   then PULSE_LONG else PULSE_SHORT) 1 s).
Proof. reflexivity. Qed.

Lemma sendFrame_loop_run {clk} (frame : Z) :
  forall (n : nat) (s : Board clk),
    (n < 16)%nat ->
    sendFrame_loop (S n) (2 ^ Z.of_nat n) frame s
    = run_events (flat_map pulse_events (map (bit_pulse frame) (countdown (S n)))) s.
Proof.
  induction n as [|n IH]; intros s Hn.
  - rewrite sendFrame_loop_S. cbn [sendFrame_loop countdown map flat_map].
    rewrite sendPulses_run, mask_test by lia.
    unfold bit_pulse. simpl. now rewrite !app_nil_r.
  - rewrite sendFrame_loop_S, mask_shift by lia.
    rewrite IH by lia. rewrite sendPulses_run, mask_test by lia.
    rewrite <- run_events_app.
    cbn [countdown map flat_map]. 
    unfold bit_pulse at 1. simpl concat. now rewrite app_nil_r.
Qed.

Lemma sendFrame_run {clk} (frame : Z) (s : Board clk) :
  sendFrame frame s = run_events (frame_events frame) s.
Proof.
  unfold sendFrame. change 0x8000 with (2 ^ Z.of_nat 15).
  rewrite sendFrame_loop_run by lia. rewrite !sendPulses_run.
  rewrite <- !run_events_app. f_equal.
  unfold frame_events, frame_pulses. rewrite !flat_map_app.
  simpl. rewrite !app_nil_r, <- !app_assoc. reflexivity.
Qed.

(** C1: for every frame value [sendFrame] makes the calls of exactly 19
    pulses, in this order: two SYNC pulses, then one pulse per bit from
    bit 15 down to bit 0 (LONG when the bit is 1, SHORT when it is 0),
    then one SHORT pulse. *)
Theorem sendFrame_pulses {clk} :
  forall (frame : Z) (s : Board clk),
    exists pulses : list SubmarinePulseType,
      sendFrame frame s = run_events (flat_map pulse_events pulses) s
      /\ trace (sendFrame frame s) = trace s ++ flat_map pulse_events pulses
      /\ length pulses = 19%nat
      /\ pulses
         = [PULSE_SYNC; PULSE_SYNC]
           ++ map (fun i => if Z.testbit frame i then PULSE_LONG else PULSE_SHORT)
                  [15; 14; 13; 12; 11; 10; 9; 8; 7; 6; 5; 4; 3; 2; 1; 0]
           ++ [PULSE_SHORT].
Proof.
  intros frame s. exists (frame_pulses frame).
  assert (H : sendFrame frame s = run_events (frame_events frame) s)
    by apply sendFrame_run.
  unfold frame_events in H.
  split; [exact H|]. split; [rewrite H; apply trace_run_events|].
  split; reflexivity.
Qed.

(** ** The command codec *)

(** C3: for every command the low byte of the frame is the command's
    value and the high byte is the bitwise complement of the low byte. *)
Theorem encode_bytes :
  forall command : SubmarineCommand,
    let lowByte := Z.land (encode command) 0xFF in
    let highByte := Z.shiftr (encode command) 8 in
    lowByte = command_value command
    /\ highByte = to_uint8 (Z.lnot lowByte)
    /\ Z.lxor highByte lowByte = 0xFF
    /\ encode command = 256 * highByte + lowByte.
Proof. intros []; vm_compute; repeat split; reflexivity. Qed.

Lemma encode_STOP : encode STOP = 0xFF00.
Proof. reflexivity. Qed.

(** ** The command sequencer *)

Lemma to_ulong_to_long (z : Z) : to_ulong (to_long z) = to_ulong z.
Proof.
  unfold to_ulong, to_long. rewrite (Z.mod_eq (z + 2 ^ 31)) by lia.
  replace (z + 2 ^ 31 - 2 ^ 32 * ((z + 2 ^ 31) / 2 ^ 32) - 2 ^ 31)
    with (z + (- ((z + 2 ^ 31) / 2 ^ 32)) * 2 ^ 32) by ring.
  apply Z_mod_plus_full.
Qed.

(** The deadline of the hold loop, as the comparison sees it. *)
Lemma deadline_mod (now hold_time_ms : Z) :
  to_ulong (to_long (to_long now + hold_time_ms))
  = (now + hold_time_ms) mod 2 ^ 32.
Proof.
  rewrite to_ulong_to_long. unfold to_ulong.
  rewrite <- Zplus_mod_idemp_l.
  change (to_long now mod 2 ^ 32) with (to_ulong (to_long now)).
  rewrite to_ulong_to_long. unfold to_ulong.
  now rewrite Zplus_mod_idemp_l.
Qed.

(** While the deadline stays within the 32 bits of the clock, the test of
    the code is the test on the time elapsed. *)
Lemma hold_test_elapsed {clk} (hold_time_ms : Z) (s s' : Board clk) :
  0 <= millis clk (clock s) + hold_time_ms < 2 ^ 32 ->
  hold_test (to_long (millis clk (clock s))) hold_time_ms s'
  = (elapsed s s' <? hold_time_ms).
Proof.
  intros Hrange. unfold hold_test, elapsed.
  rewrite deadline_mod, Z.mod_small by assumption.
  destruct (Z.ltb_spec (millis clk (clock s')) (millis clk (clock s) + hold_time_ms));
    destruct (Z.ltb_spec (millis clk (clock s') - millis clk (clock s)) hold_time_ms);
    try reflexivity; lia.
Qed.


Lemma hold_loop_run {clk} (start_time hold_time_ms frame : Z) :
  forall (k fuel : nat) (s : Board clk),
    (forall j, (j < k)%nat ->
       hold_test start_time hold_time_ms
         (Nat.iter j (fun s => sendFrame frame (delay 35 s)) s) = true) ->
    hold_test start_time hold_time_ms
      (Nat.iter k (fun s => sendFrame frame (delay 35 s)) s) = false ->
    (k < fuel)%nat ->
    hold_loop fuel start_time hold_time_ms frame s
    = Some (Nat.iter k (fun s => sendFrame frame (delay 35 s)) s).
Proof.
  induction k as [|k IH]; intros fuel s Hlt Hk Hfuel;
    (destruct fuel as [|fuel]; [lia|]); cbn [hold_loop].
  - simpl in Hk. now rewrite Hk.
  - pose proof (Hlt 0%nat ltac:(lia)) as H0. simpl in H0. rewrite H0.
    rewrite Nat.iter_succ_r in *.
    apply IH; [|assumption|lia].
    intros j Hj. pose proof (Hlt (S j) ltac:(lia)) as HSj.
    now rewrite Nat.iter_succ_r in HSj.
Qed.

(** Conversely, a hold loop that exits has run its body some [k] times. *)
Lemma hold_loop_exits {clk} (start_time hold_time_ms frame : Z) :
  forall (fuel : nat) (s s' : Board clk),
    hold_loop fuel start_time hold_time_ms frame s = Some s' ->
    exists k,
      s' = Nat.iter k (fun s => sendFrame frame (delay 35 s)) s
      /\ (forall j, (j < k)%nat ->
            hold_test start_time hold_time_ms
              (Nat.iter j (fun s => sendFrame frame (delay 35 s)) s) = true)
      /\ hold_test start_time hold_time_ms s' = false.
Proof.
  induction fuel as [|fuel IH]; intros s s' H; [discriminate|].
  cbn [hold_loop] in H.
  destruct (hold_test start_time hold_time_ms s) eqn:Htest.
  - destruct (IH _ _ H) as (k & -> & Hlt & Hk). exists (S k).
    rewrite Nat.iter_succ_r. split; [reflexivity|]. split; [|assumption].
    intros [|j] Hj; [assumption|]. rewrite Nat.iter_succ_r. apply Hlt. lia.
  - injection H as <-. exists 0%nat. repeat split; [|assumption].
    intros j Hj; lia.
Qed.

Lemma hold_step_run {clk} (frame : Z) (s : Board clk) :
  sendFrame frame (delay 35 s) = run_events (Delay 35 :: frame_events frame) s.
Proof. now rewrite sendFrame_run. Qed.

Lemma stop_loop_run {clk} (s : Board clk) :
  stop_loop s = run_events (concat (repeat (Delay 35 :: frame_events 0xFF00) 3)) s.
Proof.
  unfold stop_loop. apply iter_run_events. intros s'. apply hold_step_run.
Qed.

Lemma hold_state_run {clk} (command : SubmarineCommand) (s : Board clk)
    (k : nat) :
  hold_state command s k
  = run_events (frame_events (encode command)
                  ++ (Delay 35 :: frame_events (encode command))
                  ++ concat (repeat (Delay 35 :: frame_events (encode command)) k)) s.
Proof.
  unfold hold_state.
  rewrite (iter_run_events _ _ (hold_step_run (encode command))).
  rewrite hold_step_run, sendFrame_run, <- !run_events_app.
  reflexivity.
Qed.

Lemma command_run {clk} (command : SubmarineCommand) (s : Board clk) (k : nat) :
  stop_loop (hold_state command s k)
  = run_events (command_events (encode command) k) s.
Proof.
  rewrite stop_loop_run, hold_state_run, <- run_events_app.
  unfold command_events. now rewrite <- !app_assoc.
Qed.

(** [sendCommand], given how many times its hold test succeeds. *)
Lemma sendCommand_run {clk} (command : SubmarineCommand) (hold_time_ms : Z)
    (s : Board clk) (k fuel : nat) :
  code_hold_count command hold_time_ms s k ->
  (k < fuel)%nat ->
  sendCommand fuel command hold_time_ms s
  = Some (run_events (command_events (encode command) k) s).
Proof.
  intros [Hlt Hk] Hfuel. unfold sendCommand.
  rewrite (hold_loop_run _ _ _ k) by assumption.
  now rewrite <- command_run.
Qed.

(** A [sendCommand] that returns has made the calls of a command. *)
Lemma sendCommand_returns {clk} (command : SubmarineCommand) (hold_time_ms : Z)
    (s s' : Board clk) (fuel : nat) :
  sendCommand fuel command hold_time_ms s = Some s' ->
  exists k, code_hold_count command hold_time_ms s k
            /\ s' = run_events (command_events (encode command) k) s.
Proof.
  unfold sendCommand. intros H.
  destruct (hold_loop fuel _ _ _ _) as [s1|] eqn:Hloop; [|discriminate].
  injection H as <-.
  destruct (hold_loop_exits _ _ _ _ _ _ Hloop) as (k & -> & Hlt & Hk).
  exists k. split; [split; assumption|]. apply command_run.
Qed.

(** *** The clock along a command *)

Lemma millis_run_nondecreasing {clk} :
  nondecreasing clk ->
  forall (l : list Event) (s : Board clk),
    millis clk (clock s) <= millis clk (clock (run_events l s)).
Proof.
  intros Hmono l. induction l as [|e l IH]; intros s; [simpl; lia|].
  change (run_events (e :: l) s) with (run_events l (call e s)).
  specialize (IH (call e s)). specialize (Hmono e (clock s)).
  simpl in IH. lia.
Qed.

Lemma clock_delay {clk} (ms : Z) (s : Board clk) :
  clock (delay ms s) = tick clk (Delay ms) (clock s).
Proof. reflexivity. Qed.

Lemma millis_hold_step {clk} (frame : Z) (s : Board clk) :
  nondecreasing clk -> wait35_advances clk ->
  millis clk (clock s) + 35
  <= millis clk (clock (sendFrame frame (delay 35 s))).
Proof.
  intros Hmono H35. rewrite sendFrame_run.
  pose proof (millis_run_nondecreasing Hmono (frame_events frame) (delay 35 s)).
  specialize (H35 (clock s)). rewrite clock_delay in *. lia.
Qed.

Lemma hold_state_S {clk} (command : SubmarineCommand) (s : Board clk) (j : nat) :
  hold_state command s (S j)
  = sendFrame (encode command) (delay 35 (hold_state command s j)).
Proof. reflexivity. Qed.

Lemma hold_state_0 {clk} (command : SubmarineCommand) (s : Board clk) :
  hold_state command s 0
  = sendFrame (encode command)
      (delay 35 (sendFrame (encode command) s)).
Proof. reflexivity. Qed.

Lemma millis_hold_state_ge {clk} (command : SubmarineCommand) (s : Board clk) :
  nondecreasing clk -> wait35_advances clk ->
  forall j, millis clk (clock s) + 35 * (Z.of_nat j + 1)
            <= millis clk (clock (hold_state command s j)).
Proof.
  intros Hmono H35. induction j as [|j IH].
  - rewrite hold_state_0.
    pose proof (millis_hold_step (encode command)
                  (sendFrame (encode command) s) Hmono H35) as Hstep.
    pose proof (millis_run_nondecreasing Hmono (frame_events (encode command)) s)
      as Hfirst.
    rewrite <- sendFrame_run in Hfirst. lia.
  - rewrite hold_state_S.
    pose proof (millis_hold_step (encode command) (hold_state command s j)
                  Hmono H35). lia.
Qed.

Lemma pulse_events_only (pulses : list SubmarinePulseType) :
  forallb is_pulse_event (flat_map pulse_events pulses) = true.
Proof.
  induction pulses as [|[w d] pulses IH]; [reflexivity|].
  simpl. rewrite forallb_app, IH. now destruct w.
Qed.

Lemma millis_run_pulses {clk} :
  only_waits_take_time clk ->
  forall (l : list Event) (s : Board clk),
    forallb is_pulse_event l = true ->
    millis clk (clock (run_events l s)) = millis clk (clock s).
Proof.
  intros (_ & Hio & Hus) l. induction l as [|e l IH]; intros s Hl; [reflexivity|].
  simpl in Hl. apply andb_prop in Hl as [He Hl].
  change (run_events (e :: l) s) with (run_events l (call e s)).
  rewrite IH by assumption.
  destruct e; try discriminate; simpl; [apply Hio | apply Hus].
Qed.

Lemma millis_sendFrame {clk} (frame : Z) (s : Board clk) :
  only_waits_take_time clk ->
  millis clk (clock (sendFrame frame s)) = millis clk (clock s).
Proof.
  intros H. rewrite sendFrame_run. apply (millis_run_pulses H).
  apply pulse_events_only.
Qed.

Lemma millis_hold_state {clk} (command : SubmarineCommand) (s : Board clk) :
  only_waits_take_time clk ->
  forall j, millis clk (clock (hold_state command s j))
            = millis clk (clock s) + 35 * (Z.of_nat j + 1).
Proof.
  intros H. pose proof H as (H35 & _).
  induction j as [|j IH].
  - rewrite hold_state_0, millis_sendFrame by assumption.
    rewrite clock_delay, H35, millis_sendFrame by assumption. lia.
  - rewrite hold_state_S, millis_sendFrame by assumption.
    rewrite clock_delay, H35, IH. lia.
Qed.

Lemma IdealClock_nondecreasing : nondecreasing IdealClock.
Proof.
  intros e t. destruct e; simpl; try lia.
  unfold to_ulong. pose proof (Z.mod_pos_bound ms (2 ^ 32)). lia.
Qed.

Lemma IdealClock_wait35 : wait35_advances IdealClock.
Proof. intros t. simpl. change (to_ulong 35) with 35. lia. Qed.

Lemma IdealClock_only_waits : only_waits_take_time IdealClock.
Proof. repeat split; intros; simpl; try reflexivity. Qed.

Lemma MicrosClock_nondecreasing : nondecreasing MicrosClock.
Proof.
  intros e t. destruct e; cbn [millis tick MicrosClock]; try lia;
    apply Z.div_le_mono; try lia.
  - unfold to_uint16. pose proof (Z.mod_pos_bound us (2 ^ 16)). lia.
  - unfold to_ulong. pose proof (Z.mod_pos_bound ms (2 ^ 32)). lia.
Qed.

Lemma MicrosClock_wait35 : wait35_advances MicrosClock.
Proof.
  intros t. cbn [millis tick MicrosClock].
  change (1000 * to_ulong 35) with (35 * 1000).
  rewrite Z.div_add by lia. lia.
Qed.

(** The hold loop finds its exit within [n] iterations when the deadline
    is at most [35 * n] ms ahead. *)
Lemma hold_exit_exists {clk} (start_time hold_time_ms frame : Z) :
  nondecreasing clk -> wait35_advances clk ->
  forall (n : nat) (s : Board clk),
    to_ulong (to_long (start_time + hold_time_ms)) - millis clk (clock s)
    <= 35 * Z.of_nat n ->
    exists k,
      (k <= n)%nat
      /\ (forall j, (j < k)%nat ->
            hold_test start_time hold_time_ms
              (Nat.iter j (fun s => sendFrame frame (delay 35 s)) s) = true)
      /\ hold_test start_time hold_time_ms
           (Nat.iter k (fun s => sendFrame frame (delay 35 s)) s) = false.
Proof.
  intros Hmono H35. induction n as [|n IH]; intros s Hd.
  - exists 0%nat. split; [lia|]. split; [intros j Hj; lia|].
    unfold hold_test. apply Z.ltb_ge. simpl. lia.
  - destruct (hold_test start_time hold_time_ms s) eqn:Htest.
    + pose proof (millis_hold_step frame s Hmono H35) as Hstep.
      destruct (IH (sendFrame frame (delay 35 s))) as (k & Hk & Hlt & Hex);
        [lia|].
      exists (S k). split; [lia|]. rewrite Nat.iter_succ_r. split; [|assumption].
      intros [|j] Hj; [assumption|]. rewrite Nat.iter_succ_r. apply Hlt. lia.
    + exists 0%nat. split; [lia|]. split; [intros j Hj; lia|assumption].
Qed.

(** *** Termination *)

(** C9: on a millisecond clock that never goes back and that every 35 ms
    wait moves on by 35 at least (so a clock that does not wrap: its
    reading is any integer), the hold loop exits after finitely many
    iterations whatever [hold_time_ms] is, and [sendCommand] runs to its
    end: there is a number [k] of hold iterations such that any fuel
    above [k] makes [sendCommand] return, having made the calls of the
    command with exactly [k] hold retransmissions. *)
Theorem sendCommand_terminates :
  forall clk : ClockModel,
    nondecreasing clk -> wait35_advances clk ->
    forall (command : SubmarineCommand) (hold_time_ms : Z) (s : Board clk),
    exists k : nat,
      forall fuel, (k < fuel)%nat ->
        sendCommand fuel command hold_time_ms s
        = Some (run_events (command_events (encode command) k) s).
Proof.
  intros clk Hmono H35 command hold_time_ms s.
  set (start_time := to_long (millis clk (clock s))).
  set (deadline := to_ulong (to_long (start_time + hold_time_ms))).
  destruct (hold_exit_exists start_time hold_time_ms (encode command) Hmono H35
              (Z.to_nat (deadline - millis clk (clock (hold_state command s 0))))
              (hold_state command s 0))
    as (k & _ & Hlt & Hk); [fold deadline; lia|].
  exists k. intros fuel Hfuel.
  apply sendCommand_run; [split; assumption | assumption].
Qed.

Lemma sendCommand_terminates_witness :
  exists k : nat,
    forall fuel, (k < fuel)%nat ->
      sendCommand fuel FORWARD 3000 one_second_up
      = Some (run_events (command_events (encode FORWARD) k) one_second_up).
Proof.
  apply (sendCommand_terminates IdealClock
           IdealClock_nondecreasing IdealClock_wait35 FORWARD 3000).
Defined.

(** *** The sequence of a command *)

Lemma hold_count_code {clk} (command : SubmarineCommand) (hold_time_ms : Z)
    (s : Board clk) (k : nat) :
  0 <= millis clk (clock s) + hold_time_ms < 2 ^ 32 ->
  hold_count command hold_time_ms s k ->
  code_hold_count command hold_time_ms s k.
Proof.
  intros Hrange [Hlt Hk]. split.
  - intros j Hj. rewrite hold_test_elapsed by assumption.
    apply Z.ltb_lt. now apply Hlt.
  - rewrite hold_test_elapsed by assumption. apply Z.ltb_ge. lia.
Qed.


Lemma hold_count_one_second_up : hold_count FORWARD 100 one_second_up 2.
Proof.
  unfold hold_count, elapsed.
  split; [intros j Hj|]; rewrite (millis_hold_state _ _ IdealClock_only_waits);
    simpl millis; lia.
Qed.



Lemma elapsed_one_second_up :
  elapsed one_second_up (hold_state FORWARD one_second_up 0) = 35.
Proof.
  unfold elapsed. rewrite (millis_hold_state _ _ IdealClock_only_waits).
  simpl millis. lia.
Qed.


(** The calls of a command tell how many hold retransmissions it had. *)
Lemma length_concat_repeat {A} (l : list A) (n : nat) :
  length (concat (repeat l n)) = (n * length l)%nat.
Proof.
  induction n as [|n IH]; simpl; [reflexivity|].
  now rewrite length_app, IH.
Qed.

Lemma command_events_inj (frame : Z) (k k' : nat) :
  command_events frame k = command_events frame k' -> k = k'.
Proof.
  intros H. apply (f_equal (@length Event)) in H.
  unfold command_events in H.
  rewrite !length_app, !length_concat_repeat in H. simpl length in H. nia.
Qed.

Lemma command_run_inj {clk} (frame : Z) (k k' : nat) (s : Board clk) :
  run_events (command_events frame k) s = run_events (command_events frame k') s ->
  k = k'.
Proof.
  intros H. apply (f_equal trace) in H. rewrite !trace_run_events in H.
  apply app_inv_head in H. now apply command_events_inj in H.
Qed.

(** *** Holding for 100 ms *)

(** C7, whatever the frames cost in time: on a millisecond clock that
    never goes back, that every 35 ms wait moves on by 35 at least and
    that does not wrap before the deadline, [sendCommand(FORWARD, 100)]
    sends the frame twice, then at most 2 = floor(100/35) more times in
    the hold loop, then the three stop frames; the hold loop sends it
    exactly 2 times when nothing but the 35 ms waits moves the clock. *)
Theorem sendCommand_hold_100 :
  forall (clk : ClockModel) (s : Board clk),
    nondecreasing clk -> wait35_advances clk ->
    0 <= millis clk (clock s) -> millis clk (clock s) + 100 < 2 ^ 32 ->
    exists k : nat,
      Z.of_nat k <= 100 / 35
      /\ (forall fuel, (k < fuel)%nat ->
            sendCommand fuel FORWARD 100 s
            = Some (run_events (command_events (encode FORWARD) k) s))
      /\ (only_waits_take_time clk -> k = 2%nat).
Proof.
  intros clk s Hmono H35 Hpos Hwrap.
  assert (Hrange : 0 <= millis clk (clock s) + 100 < 2 ^ 32) by lia.
  pose proof (millis_hold_state_ge FORWARD s Hmono H35) as Hge.
  assert (Hcode : forall k, hold_count FORWARD 100 s k ->
            forall fuel, (k < fuel)%nat ->
              sendCommand fuel FORWARD 100 s
              = Some (run_events (command_events (encode FORWARD) k) s)).
  { intros k Hk fuel Hfuel. apply sendCommand_run; [|assumption].
    now apply hold_count_code. }
  change (100 / 35) with 2.
  destruct (Z.ltb_spec (elapsed s (hold_state FORWARD s 0)) 100) as [H0|H0];
    [destruct (Z.ltb_spec (elapsed s (hold_state FORWARD s 1)) 100) as [H1|H1]|].
  - exists 2%nat. split; [lia|]. split; [|reflexivity].
    apply Hcode. split.
    + intros [|[|j]] Hj; [assumption|assumption|lia].
    + pose proof (Hge 2%nat). unfold elapsed. lia.
  - exists 1%nat. split; [lia|]. split.
    + apply Hcode. split; [|lia]. intros [|j] Hj; [assumption|lia].
    + intros Honly. unfold elapsed in H1.
      rewrite (millis_hold_state _ _ Honly) in H1. lia.
  - exists 0%nat. split; [lia|]. split.
    + apply Hcode. split; [|lia]. intros j Hj; lia.
    + intros Honly. unfold elapsed in H0.
      rewrite (millis_hold_state _ _ Honly) in H0. lia.
Qed.

Lemma sendCommand_hold_100_witness :
  exists k : nat,
    Z.of_nat k <= 100 / 35
    /\ (forall fuel, (k < fuel)%nat ->
          sendCommand fuel FORWARD 100 one_second_up
          = Some (run_events (command_events (encode FORWARD) k) one_second_up))
    /\ (only_waits_take_time IdealClock -> k = 2%nat).
Proof.
  apply (sendCommand_hold_100 IdealClock one_second_up
           IdealClock_nondecreasing IdealClock_wait35); simpl; lia.
Defined.

(** The hold loop of [sendCommand(FORWARD, 100)] retransmits only once
    when the waits inside the frames are counted, the waits between the
    frames being still of 35 ms: a FORWARD frame then takes 10.8 ms
    (two SYNC pulses of 2 x 900 us, eight LONG pulses of 2 x 450 us), so
    the tests of the loop are made 56.6 ms and 102.4 ms after the call
    began.  One retransmission is less than floor(100/35). *)
Lemma hold_100_on_MicrosClock :
  nondecreasing MicrosClock
  /\ (forall t, millis MicrosClock (tick MicrosClock (Delay 35) t)
                = millis MicrosClock t + 35)
  /\ millis MicrosClock (clock (hold_state FORWARD micros_board 0)) = 56
  /\ millis MicrosClock (clock (hold_state FORWARD micros_board 1)) = 102
  /\ sendCommand 2 FORWARD 100 micros_board
     = Some (run_events (command_events (encode FORWARD) 1) micros_board)
  /\ ~ (exists k fuel,
          100 / 35 <= Z.of_nat k <= (100 + 34) / 35
          /\ sendCommand fuel FORWARD 100 micros_board
             = Some (run_events (command_events (encode FORWARD) k) micros_board)).
Proof.
  split; [exact MicrosClock_nondecreasing|].
  split.
  { intros t. cbn [millis tick MicrosClock].
    change (1000 * to_ulong 35) with (35 * 1000).
    now rewrite Z.div_add by lia. }
  split; [vm_compute; reflexivity|].
  split; [vm_compute; reflexivity|].
  split.
  { apply sendCommand_run; [split|lia].
    - intros [|j] Hj; [vm_compute; reflexivity | lia].
    - vm_compute; reflexivity. }
  intros (k & fuel & Hk & H).
  apply sendCommand_returns in H as (k' & [Hlt _] & Heq).
  apply command_run_inj in Heq as <-.
  change (100 / 35) with 2 in Hk.
  specialize (Hlt 1%nat ltac:(lia)). vm_compute in Hlt. discriminate.
Qed.

(** *** The deadline at the edges of the 32 bits *)

(** C2 at the edge of the clock: one second before the millisecond clock
    wraps, the deadline of [sendCommand(FORWARD, 3000)] wraps to 2000;
    the hold loop exits at its first test, 35 ms into the hold, so the
    frame is sent twice and never again, and no run of the call
    retransmits it for as long as less than 3000 ms have elapsed. *)
Lemma hold_skipped_before_wrap :
  elapsed before_wrap (hold_state FORWARD before_wrap 0) = 35
  /\ sendCommand 1 FORWARD 3000 before_wrap
     = Some (run_events (command_events (encode FORWARD) 0) before_wrap)
  /\ ~ (exists k fuel,
          hold_count FORWARD 3000 before_wrap k
          /\ sendCommand fuel FORWARD 3000 before_wrap
             = Some (run_events (command_events (encode FORWARD) k) before_wrap)).
Proof.
  assert (Hel : elapsed before_wrap (hold_state FORWARD before_wrap 0) = 35).
  { unfold elapsed. rewrite (millis_hold_state _ _ IdealClock_only_waits).
    simpl millis. lia. }
  split; [exact Hel|]. split.
  { apply sendCommand_run; [split|lia].
    - intros j Hj; lia.
    - vm_compute; reflexivity. }
  intros (k & fuel & [Hlt Hk] & H).
  apply sendCommand_returns in H as (k' & [Hlt' _] & Heq).
  apply command_run_inj in Heq as <-.
  destruct k as [|k].
  - apply Hk. rewrite Hel. lia.
  - specialize (Hlt' 0%nat ltac:(lia)). vm_compute in Hlt'. discriminate.
Qed.

(** C5 at the edge of the clock: [sendCommand(FORWARD, 0)] begun 10 ms
    before the millisecond clock wraps reads [start_time] as -10; the
    deadline, converted to [unsigned long] for the comparison, is
    4294967286, and after the two first transmissions [millis()] reads
    25: the body of the hold loop is run although the hold of 0 ms is
    over, and no run of the call goes from the two first transmissions
    straight to the stop frames. *)
Lemma zero_hold_enters_loop_at_wrap :
  millis WrapClock (clock ten_ms_before_wrap) = 4294967286
  /\ millis WrapClock (clock (hold_state FORWARD ten_ms_before_wrap 0)) = 25
  /\ hold_test (to_long 4294967286) 0
       (hold_state FORWARD ten_ms_before_wrap 0) = true
  /\ ~ (exists fuel,
          sendCommand fuel FORWARD 0 ten_ms_before_wrap
          = Some (run_events (command_events (encode FORWARD) 0)
                    ten_ms_before_wrap)).
Proof.
  split; [vm_compute; reflexivity|].
  split; [vm_compute; reflexivity|].
  split; [vm_compute; reflexivity|].
  intros (fuel & H).
  apply sendCommand_returns in H as (k' & [_ Hk'] & Heq).
  apply command_run_inj in Heq as <-.
  vm_compute in Hk'. discriminate.
Qed.

(** The same with a negative [hold_time_ms], one second after power-on:
    the negative deadline is read as an [unsigned long] of more than
    2^31, and the hold loop is entered although more than
    [hold_time_ms] have elapsed. *)
Lemma negative_hold_enters_loop :
  -2147483648 < elapsed one_second_up (hold_state FORWARD one_second_up 0)
  /\ hold_test (to_long 1000) (-2147483648)
       (hold_state FORWARD one_second_up 0) = true
  /\ ~ (exists fuel,
          sendCommand fuel FORWARD (-2147483648) one_second_up
          = Some (run_events (command_events (encode FORWARD) 0) one_second_up)).
Proof.
  split; [rewrite elapsed_one_second_up; lia|].
  split; [vm_compute; reflexivity|].
  intros (fuel & H).
  apply sendCommand_returns in H as (k' & [_ Hk'] & Heq).
  apply command_run_inj in Heq as <-.
  vm_compute in Hk'. discriminate.
Qed.

(** *** The stop frame *)

(** C4, as the code has it: the frame of the STOP command is 0xFF00, not
    0x0000, and so is the very frame [sendStop] sends; the closing loop
    of [sendCommand] sends that frame three times, each after a 35 ms
    wait: two SYNC pulses, LONG for the eight high bits, SHORT for the
    eight low bits, and the closing SHORT. *)
Theorem stop_frame :
  encode STOP = 0xFF00
  /\ frame_pulses 0xFF00
     = [PULSE_SYNC; PULSE_SYNC]
       ++ repeat PULSE_LONG 8 ++ repeat PULSE_SHORT 8 ++ [PULSE_SHORT]
  /\ forall (clk : ClockModel) (s : Board clk),
       sendStop s = run_events (frame_events 0xFF00) s
       /\ sendStop s = sendFrame (encode STOP) s
       /\ stop_loop s
          = run_events (concat (repeat (Delay 35 :: frame_events 0xFF00) 3)) s.
Proof.
  split; [reflexivity|]. split; [reflexivity|].
  intros clk s. split; [apply sendFrame_run|]. split; [reflexivity|].
  apply stop_loop_run.
Qed.

(** The frame of STOP is not 0x0000, and it is not distinct from the
    stop frame. *)
Lemma encode_STOP_not_zero :
  encode STOP <> 0x0000 /\ ~ encode STOP <> 0xFF00.
Proof. split; [discriminate | intros H; now apply H]. Qed.

(** ** The carrier line *)

Lemma carrier_after_app (l1 l2 : list Event) (before : bool) :
  carrier_after (l1 ++ l2) before = carrier_after l2 (carrier_after l1 before).
Proof. apply fold_left_app. Qed.

Lemma outputs_run_events {clk} (l : list Event) :
  forall s : Board clk, outputs (run_events l s) = carrier_after l (outputs s).
Proof.
  induction l as [|e l IH]; intros s; [reflexivity|].
  change (run_events (e :: l) s) with (run_events l (call e s)).
  now rewrite IH.
Qed.

Lemma keeps_off_app (l1 l2 : list Event) :
  keeps_off l1 -> keeps_off l2 -> keeps_off (l1 ++ l2).
Proof.
  unfold keeps_off. intros H1 H2. now rewrite carrier_after_app, H1.
Qed.

Lemma keeps_off_repeat (l : list Event) (n : nat) :
  keeps_off l -> keeps_off (concat (repeat l n)).
Proof.
  intros Hl. induction n as [|n IH]; [reflexivity|].
  simpl. now apply keeps_off_app.
Qed.

Lemma keeps_off_pulses (pulses : list SubmarinePulseType) :
  keeps_off (flat_map pulse_events pulses).
Proof.
  induction pulses as [|[w d] pulses IH]; [reflexivity|].
  simpl. apply keeps_off_app; [|assumption]. now destruct w.
Qed.

Lemma keeps_off_wait (ms : Z) (l : list Event) :
  keeps_off l -> keeps_off (Delay ms :: l).
Proof. intros Hl. exact Hl. Qed.

Lemma keeps_off_frame (frame : Z) : keeps_off (frame_events frame).
Proof. apply keeps_off_pulses. Qed.

Lemma keeps_off_command (frame : Z) (k : nat) :
  keeps_off (command_events frame k).
Proof.
  unfold command_events.
  repeat first [ apply keeps_off_frame | apply keeps_off_wait
               | apply keeps_off_repeat | apply keeps_off_app ].
  reflexivity.
Qed.

(** A list of calls that keeps the carrier off, made on a board where it
    is off and where replaying the trace ends with it off. *)
Lemma run_keeps_off {clk} (l : list Event) (s : Board clk) :
  keeps_off l ->
  (outputs s = false /\ forall before, carrier_after (trace s) before = false) ->
  outputs (run_events l s) = false
  /\ forall before, carrier_after (trace (run_events l s)) before = false.
Proof.
  intros Hl [Hout Htrace]. split.
  - now rewrite outputs_run_events, Hout.
  - intros before. now rewrite trace_run_events, carrier_after_app, Htrace.
Qed.

(** C8: on every board the sketch can reach (the constructor has
    returned, then any calls of [sendPulses], [sendFrame], [sendStop]
    and [sendCommand] that returned), the carrier is off; and whatever it
    was at power-on, the calls made since then leave it off, every
    enabling being followed by a disabling before the operation ends. *)
Theorem carrier_left_disabled :
  forall (clk : ClockModel) (s : Board clk),
    Reachable s ->
    outputs s = false
    /\ forall before : bool, carrier_after (trace s) before = false.
Proof.
  intros clk s H. induction H as [s0 s Hctor | pt n s _ IH | frame s _ IH
                                  | s _ IH | fuel c h s s' _ IH Hcmd].
  - injection Hctor as <-. split; [reflexivity|]. intros before.
    unfold enableOutputs. rewrite trace_call, carrier_after_app. reflexivity.
  - rewrite sendPulses_run. apply run_keeps_off; [|assumption].
    apply keeps_off_repeat. destruct pt as [[] d]; reflexivity.
  - rewrite sendFrame_run. apply run_keeps_off; [|assumption].
    apply keeps_off_frame.
  - unfold sendStop. rewrite sendFrame_run. apply run_keeps_off; [|assumption].
    apply keeps_off_frame.
  - apply sendCommand_returns in Hcmd as (k & _ & ->).
    apply run_keeps_off; [|assumption]. apply keeps_off_command.
Qed.

Lemma carrier_left_disabled_witness :
  exists s0 : Board IdealClock,
    Submarine true (power_on IdealClock 0 true) = Some s0
    /\ outputs (sendPulses PULSE_LONG 0 (sendFrame 0xFE01 s0)) = false
    /\ forall before : bool,
         carrier_after (trace (sendPulses PULSE_LONG 0 (sendFrame 0xFE01 s0)))
           before = false.
Proof.
  eexists. split; [reflexivity|].
  apply (carrier_left_disabled IdealClock).
  apply Reach_sendPulses, Reach_sendFrame.
  apply (Reach_Submarine (power_on IdealClock 0 true)). reflexivity.
Defined.

(** ** Further properties of the pulse engine and the frame encoder *)

(** X1: pulse counts add up: for counts that are not negative, asking
    for [m + n] pulses is asking for [m] and then for [n]. *)
Theorem sendPulses_add {clk} :
  forall (pulseType : SubmarinePulseType) (m n : Z) (s : Board clk),
    0 <= m -> 0 <= n ->
    sendPulses pulseType (m + n) s
    = sendPulses pulseType n (sendPulses pulseType m s).
Proof.
  intros pt m n s Hm Hn. rewrite !sendPulses_run, <- run_events_app.
  rewrite Z2Nat.inj_add by assumption.
  now rewrite repeat_app, concat_app.
Qed.

Lemma sendPulses_add_witness :
  sendPulses PULSE_SYNC (1 + 1) one_second_up
  = sendPulses PULSE_SYNC 1 (sendPulses PULSE_SYNC 1 one_second_up).
Proof. apply (sendPulses_add PULSE_SYNC 1 1 one_second_up); lia. Defined.

Lemma frame_pulses_bits (frame : Z) :
  frame_pulses frame
  = [PULSE_SYNC; PULSE_SYNC]
      ++ map pulse_of_bit (map (Z.testbit frame) (countdown 16))
      ++ [PULSE_SHORT].
Proof. unfold frame_pulses. now rewrite map_map. Qed.

(** The calls of data pulses can be read back in one way only. *)
Lemma data_pulses_inj :
  forall (bs1 bs2 : list bool) (rest1 rest2 : list Event),
    length bs1 = length bs2 ->
    flat_map pulse_events (map pulse_of_bit bs1) ++ rest1
    = flat_map pulse_events (map pulse_of_bit bs2) ++ rest2 ->
    bs1 = bs2.
Proof.
  induction bs1 as [|b1 bs1 IH]; intros [|b2 bs2] rest1 rest2 Hlen H;
    try discriminate; [reflexivity|].
  injection Hlen as Hlen.
  destruct b1, b2; cbn [map flat_map] in H; rewrite <- !app_assoc in H;
    try discriminate.
  - f_equal. eapply IH; [exact Hlen|].
    unfold pulse_of_bit, pulse_events in H. simpl in H.
    injection H as H. exact H.
  - f_equal. eapply IH; [exact Hlen|].
    unfold pulse_of_bit, pulse_events in H. simpl in H.
    injection H as H. exact H.
Qed.

Lemma frame_events_bits (frame1 frame2 : Z) :
  frame_events frame1 = frame_events frame2 ->
  map (Z.testbit frame1) (countdown 16) = map (Z.testbit frame2) (countdown 16).
Proof.
  unfold frame_events. rewrite !frame_pulses_bits, !flat_map_app.
  intros H. apply app_inv_head in H.
  eapply data_pulses_inj; [|exact H]. now rewrite !length_map.
Qed.

Lemma countdown_In (n : nat) (i : Z) :
  0 <= i < Z.of_nat n -> In i (countdown n).
Proof.
  induction n as [|n IH]; intros Hi; [lia|].
  destruct (Z.eq_dec i (Z.of_nat n)) as [->|Hne]; [now left|].
  right. apply IH. lia.
Qed.

Lemma map_testbit_In (frame1 frame2 : Z) (l : list Z) :
  map (Z.testbit frame1) l = map (Z.testbit frame2) l ->
  forall i, In i l -> Z.testbit frame1 i = Z.testbit frame2 i.
Proof.
  induction l as [|x l IH]; intros H i Hi; [contradiction|].
  injection H as Hx Hl. destruct Hi as [<-|Hi]; [assumption|now apply IH].
Qed.

Lemma frame_events_mod (frame : Z) :
  frame_events (frame mod 2 ^ 16) = frame_events frame.
Proof.
  unfold frame_events. rewrite !frame_pulses_bits. do 4 f_equal.
  apply map_ext_in. intros i Hi.
  apply Z.mod_pow2_bits_low.
  assert (Hall : forall j, In j (countdown 16) -> j < 16)
    by (intros j Hj; simpl in Hj; intuition lia).
  now apply Hall.
Qed.

Lemma frame_events_inj (frame1 frame2 : Z) :
  frame_events frame1 = frame_events frame2 ->
  frame1 mod 2 ^ 16 = frame2 mod 2 ^ 16.
Proof.
  intros H. apply frame_events_bits in H.
  apply Z.bits_inj'. intros i Hi.
  destruct (Z.lt_ge_cases i 16) as [Hlt|Hge].
  - rewrite !Z.mod_pow2_bits_low by lia.
    apply (map_testbit_In _ _ _ H). apply countdown_In. simpl. lia.
  - now rewrite !Z.mod_pow2_bits_high by lia.
Qed.

(** X2: two frame values are sent as the same calls exactly when they
    have the same 16 low bits: no two 16-bit frames look alike on the
    wire, and bits above the 16th never reach it. *)
Theorem sendFrame_same_wire {clk} :
  forall (frame1 frame2 : Z) (s : Board clk),
    trace (sendFrame frame1 s) = trace (sendFrame frame2 s)
    <-> frame1 mod 2 ^ 16 = frame2 mod 2 ^ 16.
Proof.
  intros frame1 frame2 s. rewrite !sendFrame_run, !trace_run_events. split.
  - intros H. apply app_inv_head in H. now apply frame_events_inj.
  - intros H. now rewrite <- (frame_events_mod frame1), H, frame_events_mod.
Qed.

(** X3: the nine commands are sent as nine different frames: two
    commands whose frames make the same calls are the same command, and
    the only command whose frame is the stop frame 0xFF00 is STOP. *)
Theorem commands_distinct_on_wire {clk} :
  forall (c1 c2 : SubmarineCommand) (s : Board clk),
    (trace (sendFrame (encode c1) s) = trace (sendFrame (encode c2) s)
     -> c1 = c2)
    /\ (trace (sendFrame (encode c1) s) = trace (sendStop s) -> c1 = STOP).
Proof.
  intros c1 c2 s. unfold sendStop.
  rewrite !sendFrame_run, !trace_run_events. split; intros H;
    apply app_inv_head, frame_events_inj in H.
  - destruct c1, c2; try reflexivity; vm_compute in H; discriminate.
  - destruct c1; try reflexivity; vm_compute in H; discriminate.
Qed.

(** *** Frames of command bytes *)

Lemma frame_of_byte_uint8 (command : Z) :
  frame_of_byte (to_uint8 command) = frame_of_byte command.
Proof. unfold frame_of_byte, to_uint8. now rewrite Zmod_mod. Qed.

Lemma byte_cases (P : Z -> Prop) :
  (forall n, (n < 256)%nat -> P (Z.of_nat n)) ->
  forall b, 0 <= b < 256 -> P b.
Proof.
  intros H b Hb. rewrite <- (Z2Nat.id b) by lia. apply H. lia.
Qed.

Lemma below_forallb (f : nat -> bool) (bound : nat) :
  forallb f (seq 0 bound) = true -> forall n, (n < bound)%nat -> f n = true.
Proof.
  intros H n Hn. rewrite forallb_forall in H. apply H, in_seq. lia.
Qed.

(** X4: whatever byte is passed as the command (the nine commands and
    every combination of them), the frame has the byte as its low byte
    and its complement as its high byte, so it has exactly eight 1 bits:
    it is sent as 8 LONG and 8 SHORT data pulses, in 58 calls that ask
    for 10800 us of waiting in all.  Every command frame costs the same
    on the wire. *)
Theorem frame_of_byte_balanced :
  forall command : Z,
    let frame := frame_of_byte command in
    Z.land frame 0xFF = to_uint8 command
    /\ Z.shiftr frame 8 = 0xFF - to_uint8 command
    /\ length (filter is_long (frame_pulses frame)) = 8%nat
    /\ length (frame_events frame) = 58%nat
    /\ wait_micros (frame_events frame) = 10800
    /\ forall c : SubmarineCommand,
         encode c = frame_of_byte (command_value c).
Proof.
  intros command frame. subst frame.
  assert (Hcheck : forall b, 0 <= b < 256 ->
            ((Z.land (frame_of_byte b) 0xFF =? b)
             && (Z.shiftr (frame_of_byte b) 8 =? 0xFF - b)
             && (length (filter is_long (frame_pulses (frame_of_byte b))) =? 8)%nat
             && (length (frame_events (frame_of_byte b)) =? 58)%nat
             && (wait_micros (frame_events (frame_of_byte b)) =? 10800))%bool
            = true).
  { apply (byte_cases (fun b => _ = true)).
    apply (below_forallb (fun n => _)). vm_compute. reflexivity. }
  assert (Hb : 0 <= to_uint8 command < 256)
    by (unfold to_uint8; apply Z.mod_pos_bound; lia).
  specialize (Hcheck _ Hb). rewrite frame_of_byte_uint8 in Hcheck.
  rewrite !andb_true_iff in Hcheck.
  destruct Hcheck as ((((H1 & H2) & H3) & H4) & H5).
  apply Z.eqb_eq in H1, H2, H5. apply Nat.eqb_eq in H3, H4.
  repeat split; assumption.
Qed.

(** ** Further properties of the command sequencer *)

Lemma hold_100_ideal :
  sendCommand 3 FORWARD 100 one_second_up
  = Some (run_events (command_events (encode FORWARD) 2) one_second_up).
Proof.
  apply sendCommand_run; [|lia]. apply hold_count_code.
  - simpl. lia.
  - exact hold_count_one_second_up.
Qed.



(** How many times the hold test succeeds when nothing but the 35 ms
    waits moves the clock. *)
Lemma hold_count_only_waits {clk} (command : SubmarineCommand)
    (hold_time_ms : Z) (s : Board clk) :
  only_waits_take_time clk ->
  hold_count command hold_time_ms s (Z.to_nat ((hold_time_ms - 1) / 35)).
Proof.
  intros Honly. unfold hold_count, elapsed.
  pose proof (Z.mul_div_le (hold_time_ms - 1) 35 ltac:(lia)) as Hle.
  pose proof (Z.mul_succ_div_gt (hold_time_ms - 1) 35 ltac:(lia)) as Hgt.
  split; [intros j Hj|]; rewrite (millis_hold_state _ _ Honly); lia.
Qed.



(** X7: on a clock that never goes back and that every 35 ms wait moves
    on by 35 at least, with a deadline that is not negative, the hold
    loop never retransmits more than floor((hold_time_ms - 1) / 35)
    times, however long the frames take. *)
Theorem sendCommand_hold_bound {clk} :
  forall (command : SubmarineCommand) (hold_time_ms : Z) (s s' : Board clk)
         (fuel : nat),
    nondecreasing clk -> wait35_advances clk ->
    0 <= millis clk (clock s) + hold_time_ms ->
    sendCommand fuel command hold_time_ms s = Some s' ->
    exists k : nat,
      s' = run_events (command_events (encode command) k) s
      /\ Z.of_nat k <= Z.max 0 ((hold_time_ms - 1) / 35).
Proof.
  intros command hold_time_ms s s' fuel Hmono H35 Hpos H.
  apply sendCommand_returns in H as (k & [Hlt _] & ->).
  exists k. split; [reflexivity|].
  destruct k as [|k]; [lia|].
  specialize (Hlt k ltac:(lia)). unfold hold_test in Hlt.
  rewrite deadline_mod in Hlt. apply Z.ltb_lt in Hlt.
  pose proof (Z.mod_le (millis clk (clock s) + hold_time_ms) (2 ^ 32)
                Hpos ltac:(lia)) as Hmod.
  pose proof (millis_hold_state_ge command s Hmono H35 k) as Hge.
  assert (Hk : Z.of_nat (S k) <= (hold_time_ms - 1) / 35)
    by (apply Z.div_le_lower_bound; lia).
  lia.
Qed.

Lemma sendCommand_hold_bound_witness :
  exists k : nat,
    run_events (command_events (encode FORWARD) 2) one_second_up
    = run_events (command_events (encode FORWARD) k) one_second_up
    /\ Z.of_nat k <= Z.max 0 ((100 - 1) / 35).
Proof.
  apply (sendCommand_hold_bound FORWARD 100 one_second_up _ 3
           IdealClock_nondecreasing IdealClock_wait35).
  - simpl. lia.
  - exact hold_100_ideal.
Defined.

(** *** What a command costs and what it never does *)

Lemma count_wait35_cons (e : Event) (l : list Event) :
  count_wait35 (e :: l)
  = match e with
    | Delay ms => if ms =? 35 then 1 + count_wait35 l else count_wait35 l
    | _ => count_wait35 l
    end.
Proof. reflexivity. Qed.

Lemma count_wait35_app (l1 l2 : list Event) :
  count_wait35 (l1 ++ l2) = count_wait35 l1 + count_wait35 l2.
Proof.
  induction l1 as [|e l1 IH]; [reflexivity|].
  rewrite <- app_comm_cons, !count_wait35_cons, IH.
  destruct e as [b|us|ms| | |]; try reflexivity.
  destruct (ms =? 35); lia.
Qed.

Lemma count_wait35_repeat (l : list Event) (n : nat) :
  count_wait35 (concat (repeat l n)) = Z.of_nat n * count_wait35 l.
Proof.
  induction n as [|n IH]; [reflexivity|].
  cbn [repeat concat]. rewrite count_wait35_app, IH. lia.
Qed.

Lemma count_wait35_pulses (l : list Event) :
  forallb is_pulse_event l = true -> count_wait35 l = 0.
Proof.
  induction l as [|e l IH]; intros H; [reflexivity|].
  simpl in H. apply andb_prop in H as [He Hl].
  rewrite count_wait35_cons. destruct e; try discriminate; now apply IH.
Qed.

Lemma count_wait35_frame (frame : Z) : count_wait35 (frame_events frame) = 0.
Proof. apply count_wait35_pulses, pulse_events_only. Qed.

Lemma count_wait35_command (frame : Z) (k : nat) :
  count_wait35 (command_events frame k) = Z.of_nat k + 4.
Proof.
  unfold command_events.
  rewrite !count_wait35_app, !count_wait35_repeat, !count_wait35_cons.
  rewrite !count_wait35_frame. change (35 =? 35) with true. lia.
Qed.

Lemma millis_run_waits {clk} :
  nondecreasing clk -> wait35_advances clk ->
  forall (l : list Event) (s : Board clk),
    millis clk (clock s) + 35 * count_wait35 l
    <= millis clk (clock (run_events l s)).
Proof.
  intros Hmono H35 l. induction l as [|e l IH]; intros s; [simpl; lia|].
  change (run_events (e :: l) s) with (run_events l (call e s)).
  specialize (IH (call e s)). rewrite count_wait35_cons.
  pose proof (Hmono e (clock s)) as Hm.
  change (clock (call e s)) with (tick clk e (clock s)) in IH.
  destruct e as [b|us|ms| | |]; try lia.
  destruct (Z.eqb_spec ms 35) as [->|Hne]; [|lia].
  specialize (H35 (clock s)). lia.
Qed.

(** X8: a command is never shorter than its four mandatory waits: on a
    clock that never goes back and that every 35 ms wait moves on by 35
    at least, a [sendCommand] that returns has taken 35 ms for each of
    its [k] hold retransmissions and 140 ms more, whatever hold was
    asked for. *)
Theorem sendCommand_takes_time {clk} :
  forall (command : SubmarineCommand) (hold_time_ms : Z) (s s' : Board clk)
         (fuel : nat),
    nondecreasing clk -> wait35_advances clk ->
    sendCommand fuel command hold_time_ms s = Some s' ->
    exists k : nat,
      s' = run_events (command_events (encode command) k) s
      /\ 35 * Z.of_nat k + 140 <= elapsed s s'.
Proof.
  intros command hold_time_ms s s' fuel Hmono H35 H.
  apply sendCommand_returns in H as (k & _ & ->).
  exists k. split; [reflexivity|]. unfold elapsed.
  pose proof (millis_run_waits Hmono H35
                (command_events (encode command) k) s) as Hw.
  rewrite count_wait35_command in Hw. lia.
Qed.

Lemma sendCommand_takes_time_witness :
  exists k : nat,
    run_events (command_events (encode FORWARD) 2) one_second_up
    = run_events (command_events (encode FORWARD) k) one_second_up
    /\ 35 * Z.of_nat k + 140
       <= elapsed one_second_up
            (run_events (command_events (encode FORWARD) 2) one_second_up).
Proof.
  apply (sendCommand_takes_time FORWARD 100 one_second_up _ 3
           IdealClock_nondecreasing IdealClock_wait35).
  exact hold_100_ideal.
Defined.

Lemma command_call_pulses (pulses : list SubmarinePulseType) :
  Forall (fun p => In p [PULSE_SHORT; PULSE_LONG; PULSE_SYNC]) pulses ->
  forallb command_call (flat_map pulse_events pulses) = true.
Proof.
  induction 1 as [|p pulses Hp _ IH]; [reflexivity|].
  cbn [flat_map]. rewrite forallb_app, IH, andb_true_r.
  simpl in Hp. destruct Hp as [<-|[<-|[<-|[]]]]; reflexivity.
Qed.

Lemma command_call_frame (frame : Z) :
  forallb command_call (frame_events frame) = true.
Proof.
  apply command_call_pulses, Forall_forall. intros p Hp.
  unfold frame_pulses in Hp. rewrite !in_app_iff in Hp.
  destruct Hp as [Hp|[Hp|Hp]].
  - simpl in Hp. destruct Hp as [<-|[<-|[]]]; simpl; auto.
  - apply in_map_iff in Hp as (i & <- & _). unfold bit_pulse.
    destruct (Z.testbit frame i); simpl; auto.
  - simpl in Hp. destruct Hp as [<-|[]]; simpl; auto.
Qed.

Lemma forallb_concat_repeat {A} (f : A -> bool) (l : list A) (n : nat) :
  forallb f l = true -> forallb f (concat (repeat l n)) = true.
Proof.
  intros Hl. induction n as [|n IH]; [reflexivity|].
  cbn [repeat concat]. now rewrite forallb_app, Hl, IH.
Qed.

Lemma command_call_command (frame : Z) (k : nat) :
  forallb command_call (command_events frame k) = true.
Proof.
  unfold command_events.
  rewrite !forallb_app, !forallb_concat_repeat, !command_call_frame;
    try reflexivity; cbn [forallb]; now rewrite command_call_frame.
Qed.

(** X9: a command touches nothing but the carrier switch and the
    waits: every call a returning [sendCommand] makes is
    [enableOutputs], [delayMicroseconds(450)], [delayMicroseconds(900)]
    or [delay(35)]; it never sets the PLL, the multisynth or the
    divider up again, and never waits for anything else. *)
Theorem sendCommand_calls {clk} :
  forall (command : SubmarineCommand) (hold_time_ms : Z) (s s' : Board clk)
         (fuel : nat),
    sendCommand fuel command hold_time_ms s = Some s' ->
    exists l : list Event,
      trace s' = trace s ++ l
      /\ forallb command_call l = true
      /\ forall e, In e l ->
           e = EnableOutputs true \/ e = EnableOutputs false
           \/ e = DelayMicroseconds 450 \/ e = DelayMicroseconds 900
           \/ e = Delay 35.
Proof.
  intros command hold_time_ms s s' fuel H.
  apply sendCommand_returns in H as (k & _ & ->).
  exists (command_events (encode command) k).
  split; [apply trace_run_events|].
  pose proof (command_call_command (encode command) k) as Hall.
  split; [exact Hall|].
  intros e He. rewrite forallb_forall in Hall. specialize (Hall e He).
  destruct e as [[]|us|ms| | |]; simpl in Hall; try discriminate; auto.
  - apply orb_prop in Hall as [Hus|Hus]; apply Z.eqb_eq in Hus; subst; auto.
  - apply Z.eqb_eq in Hall. subst; auto 6.
Qed.

Lemma sendCommand_calls_witness :
  exists l : list Event,
    trace (run_events (command_events (encode FORWARD) 2) one_second_up)
    = trace one_second_up ++ l
    /\ forallb command_call l = true
    /\ forall e, In e l ->
         e = EnableOutputs true \/ e = EnableOutputs false
         \/ e = DelayMicroseconds 450 \/ e = DelayMicroseconds 900
         \/ e = Delay 35.
Proof.
  apply (sendCommand_calls FORWARD 100 one_second_up _ 3).
  exact hold_100_ideal.
Defined.

(** ** The serial loop of [setup] *)

Lemma to_char_eqb (serial_read code : Z) :
  0 <= code < 128 ->
  (to_char serial_read =? code) = (to_uint8 serial_read =? code).
Proof.
  intros Hcode. unfold to_char, to_uint8.
  change (2 ^ 7) with 128. change (2 ^ 8) with 256.
  destruct (Z.eqb_spec ((serial_read + 128) mod 256 - 128) code);
    destruct (Z.eqb_spec (serial_read mod 256) code); try reflexivity;
    exfalso; Z.div_mod_to_equations; lia.
Qed.

Lemma setup_step_key {clk} (fuel : nat) (serial_read : Z) (sub : Board clk) :
  setup_step fuel serial_read sub
  = match key_command serial_read with
    | Some command => sendCommand fuel command 3000 sub
    | None => Some sub
    end.
Proof.
  unfold setup_step, key_command.
  rewrite !to_char_eqb by (vm_compute; split; congruence).
  repeat (match goal with
          | |- context [?a =? ?b] => destruct (a =? b); [reflexivity|]
          end).
  reflexivity.
Qed.

Lemma keys_cons (serial_read : Z) (input : list Z) :
  keys (serial_read :: input)
  = match key_command serial_read with Some c => [c] | None => [] end
    ++ keys input.
Proof. reflexivity. Qed.

Lemma setup_loop_keys {clk} (fuel : nat) (input : list Z) :
  forall sub : Board clk,
    setup_loop fuel input sub = commands_loop fuel (keys input) sub.
Proof.
  induction input as [|r input IH]; intros sub; [reflexivity|].
  cbn [setup_loop]. rewrite setup_step_key, keys_cons.
  destruct (key_command r) as [c|]; cbn [app commands_loop].
  - destruct (sendCommand fuel c 3000 sub); [apply IH | reflexivity].
  - apply IH.
Qed.

Lemma key_command_motion (serial_read : Z) (command : SubmarineCommand) :
  key_command serial_read = Some command ->
  In command [FORWARD; BACK; DOWN; UP; LEFT; RIGHT].
Proof.
  unfold key_command.
  repeat (match goal with
          | |- context [?a =? ?b] =>
              destruct (a =? b); [intros [= <-]; simpl; auto 8|]
          end).
  discriminate.
Qed.

(** X10: the serial loop does nothing but hold, for 3000 ms each and in
    the order received, the commands of the keys f, b, d, u, l and r it
    reads: every other value read (another character, an upper-case
    letter, the -1 of an empty buffer) changes nothing, and STOP, CMD1
    and CMD2 are never sent as commands.  When the generator is not
    found, [setup] never gets to the loop. *)
Theorem setup_loop_commands {clk} :
  forall (fuel : nat) (input : list Z) (sub : Board clk),
    setup_loop fuel input sub = commands_loop fuel (keys input) sub
    /\ setup_loop fuel input sub
       = setup_loop fuel
           (filter (fun r => match key_command r with
                             | Some _ => true
                             | None => false
                             end) input) sub
    /\ Forall (fun c => In c [FORWARD; BACK; DOWN; UP; LEFT; RIGHT])
         (keys input)
    /\ setup fuel false input sub = None.
Proof.
  intros fuel input sub. split; [apply setup_loop_keys|].
  split; [|split; [|reflexivity]].
  - rewrite !setup_loop_keys. f_equal. clear sub.
    induction input as [|r input IH]; [reflexivity|].
    cbn [filter]. destruct (key_command r) eqn:Hr.
    + rewrite !keys_cons, Hr. now f_equal.
    + rewrite keys_cons, Hr. exact IH.
  - apply Forall_forall. intros c Hc. unfold keys in Hc.
    apply in_flat_map in Hc as (r & _ & Hc).
    destruct (key_command r) as [c'|] eqn:Hr; [|contradiction].
    destruct Hc as [<-|[]]. exact (key_command_motion _ _ Hr).
Qed.

Lemma command_exit_exists {clk} (command : SubmarineCommand)
    (hold_time_ms : Z) (s : Board clk) :
  nondecreasing clk -> wait35_advances clk ->
  exists k : nat, code_hold_count command hold_time_ms s k.
Proof.
  intros Hmono H35.
  set (start_time := to_long (millis clk (clock s))).
  set (deadline := to_ulong (to_long (start_time + hold_time_ms))).
  destruct (hold_exit_exists start_time hold_time_ms (encode command) Hmono H35
              (Z.to_nat (deadline - millis clk (clock (hold_state command s 0))))
              (hold_state command s 0))
    as (k & _ & Hlt & Hk); [fold deadline; lia|].
  exists k. split; assumption.
Qed.

Lemma commands_loop_runs {clk} :
  nondecreasing clk -> wait35_advances clk ->
  forall (commands : list SubmarineCommand) (sub : Board clk),
  exists (ks : list nat) (n : nat),
    length ks = length commands
    /\ forall fuel, (n <= fuel)%nat ->
         commands_loop fuel commands sub
         = Some (run_events (commands_events (combine commands ks)) sub).
Proof.
  intros Hmono H35 commands.
  induction commands as [|c commands IH]; intros sub.
  - exists [], 0%nat. split; [reflexivity|]. intros fuel _. reflexivity.
  - destruct (command_exit_exists c 3000 sub Hmono H35) as (k & Hk).
    destruct (IH (run_events (command_events (encode c) k) sub))
      as (ks & n & Hlen & Hrun).
    exists (k :: ks), (Nat.max (S k) n). split; [simpl; now rewrite Hlen|].
    intros fuel Hfuel. cbn [commands_loop].
    rewrite (sendCommand_run c 3000 sub k fuel Hk) by lia.
    rewrite Hrun by lia.
    unfold commands_events. cbn [combine map concat fst snd].
    now rewrite run_events_app.
Qed.

(** X11: on a clock that never goes back and that every 35 ms wait moves
    on by 35 at least, [setup] gets through any input: once the
    generator is found, it makes the four calls of the constructor and
    then, for each key of the input in order, the calls of one whole
    command, stop frames included, before it reads the next value. *)
Theorem setup_runs :
  forall (clk : ClockModel) (input : list Z) (s : Board clk),
    nondecreasing clk -> wait35_advances clk ->
    exists (ks : list nat) (n : nat),
      length ks = length (keys input)
      /\ forall fuel, (n <= fuel)%nat ->
           setup fuel true input s
           = Some (run_events
                     (Submarine_events
                        ++ commands_events (combine (keys input) ks)) s).
Proof.
  intros clk input s Hmono H35.
  destruct (commands_loop_runs Hmono H35 (keys input)
              (run_events Submarine_events s)) as (ks & n & Hlen & Hrun).
  exists ks, n. split; [assumption|]. intros fuel Hfuel.
  unfold setup. cbn [Submarine].
  change (enableOutputs false
            (call (SetupRdiv 0 0)
               (call (SetupMultisynth 0 18 0 1) (call (SetupPLL 29 181 625) s))))
    with (run_events Submarine_events s).
  now rewrite setup_loop_keys, Hrun, run_events_app.
Qed.

Lemma setup_runs_witness :
  exists (ks : list nat) (n : nat),
    length ks = length (keys [102; -1; 70; 114])
    /\ forall fuel, (n <= fuel)%nat ->
         setup fuel true [102; -1; 70; 114] (power_on IdealClock 0 true)
         = Some (run_events
                   (Submarine_events
                      ++ commands_events (combine (keys [102; -1; 70; 114]) ks))
                   (power_on IdealClock 0 true)).
Proof.
  apply (setup_runs IdealClock [102; -1; 70; 114] (power_on IdealClock 0 true)
           IdealClock_nondecreasing IdealClock_wait35).
Defined.

Lemma command_events_stop (frame : Z) (k : nat) :
  exists pre,
    command_events frame k
    = pre ++ concat (repeat (Delay 35 :: frame_events 0xFF00) 3).
Proof.
  unfold command_events. eexists. rewrite !app_assoc. reflexivity.
Qed.

Lemma commands_loop_safe {clk} (fuel : nat) :
  forall (commands : list SubmarineCommand) (sub sub' : Board clk),
    commands_loop fuel commands sub = Some sub' ->
    (outputs sub = false -> outputs sub' = false)
    /\ (commands <> [] ->
        exists pre,
          trace sub'
          = pre ++ concat (repeat (Delay 35 :: frame_events 0xFF00) 3)).
Proof.
  induction commands as [|c commands IH]; intros sub sub' H.
  - injection H as <-. split; [auto|]. intros Hne. now contradiction Hne.
  - cbn [commands_loop] in H.
    destruct (sendCommand fuel c 3000 sub) as [sub1|] eqn:Hc; [|discriminate].
    apply sendCommand_returns in Hc as (k & _ & ->).
    destruct (IH _ _ H) as [Hout Hstop]. split.
    + intros Hoff. apply Hout. rewrite outputs_run_events, Hoff.
      apply keeps_off_command.
    + intros _. destruct commands as [|c' commands].
      * cbn [commands_loop] in H.
        assert (Heq : run_events (command_events (encode c) k) sub = sub')
          by congruence.
        rewrite <- Heq, trace_run_events.
        destruct (command_events_stop (encode c) k) as (pre & ->).
        exists (trace sub ++ pre). now rewrite app_assoc.
      * apply Hstop. discriminate.
Qed.

(** X12: whenever [setup] has dealt with the values read so far, the
    carrier is off, whatever it was at power-on; and if any of f, b, d,
    u, l, r was among them, the last calls made are the three stop
    frames, each after its 35 ms wait: the loop never reads the next
    key with a motion command as the last thing sent. *)
Theorem setup_safe {clk} :
  forall (fuel : nat) (input : list Z) (s s' : Board clk),
    setup fuel true input s = Some s' ->
    outputs s' = false
    /\ (keys input <> [] ->
        exists pre,
          trace s'
          = pre ++ concat (repeat (Delay 35 :: frame_events 0xFF00) 3)).
Proof.
  intros fuel input s s' H. unfold setup in H. cbn [Submarine] in H.
  rewrite setup_loop_keys in H.
  destruct (commands_loop_safe fuel _ _ _ H) as [Hout Hstop].
  split; [apply Hout; reflexivity | exact Hstop].
Qed.

Lemma setup_f_ideal :
  setup 86 true [102] (power_on IdealClock 1000 true)
  = Some (run_events
            (Submarine_events ++ command_events (encode FORWARD) 85)
            (power_on IdealClock 1000 true)).
Proof.
  unfold setup. cbn [Submarine].
  change (enableOutputs false
            (call (SetupRdiv 0 0)
               (call (SetupMultisynth 0 18 0 1)
                  (call (SetupPLL 29 181 625) (power_on IdealClock 1000 true)))))
    with (run_events Submarine_events (power_on IdealClock 1000 true)).
  rewrite setup_loop_keys.
  change (keys [102]) with [FORWARD]. cbn [commands_loop].
  rewrite (sendCommand_run FORWARD 3000 _ 85 86); [|  | lia].
  - now rewrite run_events_app.
  - apply hold_count_code; [|apply hold_count_only_waits, IdealClock_only_waits].
    simpl. lia.
Qed.

Lemma setup_safe_witness :
  outputs (run_events (Submarine_events ++ command_events (encode FORWARD) 85)
             (power_on IdealClock 1000 true)) = false
  /\ (keys [102] <> [] ->
      exists pre,
        trace (run_events
                 (Submarine_events ++ command_events (encode FORWARD) 85)
                 (power_on IdealClock 1000 true))
        = pre ++ concat (repeat (Delay 35 :: frame_events 0xFF00) 3)).
Proof.
  apply (setup_safe 86 [102] (power_on IdealClock 1000 true)).
  exact setup_f_ideal.
Defined.
